(** * A shallow embedding of scripts/equilibrium_lesson.py

    The script works on Python floats; the embedding computes exactly on
    rationals [Q] (the finder and the classifier) and on the reals [R] (the
    calculus facts about the three hand-coded functions).  Rounding is not
    modelled: the literals [0.1] and [1e-6] are the rationals [1#10] and
    [1#1000000].

    [scipy.optimize.fsolve] is a library routine, not code of the script.  It
    is modelled as an arbitrary solver [fsolve : (Q -> Q) -> Q -> option Q]
    (the first component of its result, or [None] when the call raises), and
    every statement about the finder holds for every such solver. *)

From Stdlib Require Import ZArith Reals Lra Lia List Sorted Permutation Mergesort Orders.
From Stdlib Require Import String Ascii QArith Qabs Qreals Lqa.
Import ListNotations.

Module Lesson.

Open Scope Q_scope.

(** ** The three scalar functions (lines 19-47) *)

(** [return x**4 - 4*x**2 + x] *)
Definition potential_energy (x : Q) : Q := x ^ 4 - 4 * x ^ 2 + x.

(** [return -4*x**3 + 8*x - 1] *)
Definition force (x : Q) : Q := -4 * x ^ 3 + 8 * x - 1.

(** [return 12*x**2 - 8] *)
Definition second_derivative (x : Q) : Q := 12 * x ^ 2 - 8.

(** Python's [a < b] on numbers, as a boolean. *)
Definition Qltb (a b : Q) : bool := negb (Qle_bool b a).

(** ** classify_equilibrium (lines 69-80) *)

Definition classify_equilibrium (x_eq : Q) : string * Q :=
  let d2U := second_derivative x_eq in
  if Qltb 0 d2U then ("stable"%string, d2U)
  else if Qltb d2U 0 then ("unstable"%string, d2U)
  else ("neutral"%string, d2U).

(** ** find_equilibrium_points (lines 50-66) *)

(** The solver: [fsolve(func, x0)[0]], or [None] when the call raises. *)
Definition solver : Type := (Q -> Q) -> Q -> option Q.

Definition tol_distinct : Q := 1 # 10.
Definition tol_root : Q := 1 # 1000000.

(** [is_new = all(abs(x_eq - x_existing) > 0.1 for x_existing in pts)] *)
Definition is_new (x_eq : Q) (pts : list Q) : bool :=
  forallb (fun x_existing => Qltb tol_distinct (Qabs (x_eq - x_existing))) pts.

(** The body of the [try] block for one seed; an exception from the
    solver is caught by the bare [except: pass] and leaves [pts] as it was. *)
Definition seed_step (fsolve : solver) (pts : list Q) (x_guess : Q) : list Q :=
  match fsolve force x_guess with
  | None => pts
  | Some x_eq =>
      if is_new x_eq pts && Qltb (Qabs (force x_eq)) tol_root
      then pts ++ [x_eq]
      else pts
  end.

(** The [for x_guess in guesses] loop, starting from [equilibrium_points = []]. *)
Definition search (fsolve : solver) (guesses : list Q) : list Q :=
  fold_left (seed_step fsolve) guesses [].

(** Python's [sorted], ascending; Timsort and merge sort are both stable. *)
Module QLeBool <: TotalLeBool'.

Definition t := Q.

Definition leb := Qle_bool.

Infix "<=?" := leb (at level 70, no associativity).

Lemma leb_total : forall a1 a2, is_true (a1 <=? a2) \/ is_true (a2 <=? a1).
Proof.
  intros a1 a2; unfold is_true, leb; rewrite !Qle_bool_iff.
  destruct (Qlt_le_dec a1 a2); [left; apply Qlt_le_weak | right]; assumption.
Qed.

End QLeBool.

Module QSort := Sort QLeBool.

Definition sorted (l : list Q) : list Q := QSort.sort l.

Definition seeds : list Q := [-2; 0; 2].

Definition find_equilibrium_points (fsolve : solver) : list Q :=
  sorted (search fsolve seeds).

(** ** Presentation of a point in create_visualization (lines 107-176) *)

Definition newline : string := String (ascii_of_nat 10) EmptyString.

(** Python's [str.upper] and [str.lower] on one ASCII character. *)
Definition ascii_upper (c : ascii) : ascii :=
  let n := nat_of_ascii c in
  if (97 <=? n)%nat && (n <=? 122)%nat then ascii_of_nat (n - 32) else c.

Definition ascii_lower (c : ascii) : ascii :=
  let n := nat_of_ascii c in
  if (65 <=? n)%nat && (n <=? 90)%nat then ascii_of_nat (n + 32) else c.

Fixpoint lower (s : string) : string :=
  match s with
  | EmptyString => EmptyString
  | String c r => String (ascii_lower c) (lower r)
  end.

(** [str.capitalize]: the first character upper case, the rest lower case. *)
Definition capitalize (s : string) : string :=
  match s with
  | EmptyString => EmptyString
  | String c r => String (ascii_upper c) (lower r)
  end.

(** How a point with the given [stability] label is drawn: the colour
    (all three panels), the marker and the legend label of the top panel
    ([f'{stability.capitalize()}: x={x_eq:.2f}'], where [x_text] stands for
    the formatted position) and the annotation of the bottom panel. *)
Record presentation := {
  p_color : string;
  p_marker : string;
  p_legend : string;
  p_annotation : string
}.

Definition point_presentation (stability x_text : string) : presentation :=
  {| p_color := if String.eqb stability "stable" then "green" else "red";
     p_marker := if String.eqb stability "stable" then "v" else "^";
     p_legend := (capitalize stability ++ ": x=" ++ x_text)%string;
     p_annotation :=
       if String.eqb stability "stable"
       then ("STABLE" ++ newline ++ "(returns to equilibrium)")%string
       else ("UNSTABLE" ++ newline ++ "(moves away)")%string |}.

(** ** A reference solver

    A solver that returns, from each of the three seeds of the script, the
    real root of [force] nearest to it, to ten decimals (the roots
    [fsolve] converges to from there); used to evaluate the finder on a
    concrete run. *)
Definition fsolve_ref : solver :=
  fun _ x0 =>
    if Qeq_bool x0 (-2) then Some (-(14729976011 # 10000000000))
    else if Qeq_bool x0 0 then Some (1260001926 # 10000000000)
    else if Qeq_bool x0 2 then Some (13469974085 # 10000000000)
    else None.

(** A solver that raises from the seed [0]. *)
Definition fsolve_fail0 : solver :=
  fun f x0 => if Qeq_bool x0 0 then None else fsolve_ref f x0.

End Lesson.

(** ** The same three functions on the reals *)

Module Calculus.

Open Scope R_scope.

Definition potential_energy (x : R) : R := x ^ 4 - 4 * x ^ 2 + x.

Definition force (x : R) : R := -4 * x ^ 3 + 8 * x - 1.

Definition second_derivative (x : R) : R := 12 * x ^ 2 - 8.

End Calculus.

(** ** The concrete scenario of the script

    The three real roots of [force] are about [-1.4730], [0.1260] and
    [1.3470]; [bracket_index] names the open interval of width [0.002]
    around each of them (3 for a point in none). *)

Module Scenario.

Import Lesson.
Open Scope Q_scope.

Definition in_open (lo hi x : Q) : bool := Qltb lo x && Qltb x hi.

Definition bracket_index (x : Q) : nat :=
  if in_open (-(1474 # 1000)) (-(1472 # 1000)) x then 0%nat
  else if in_open (125 # 1000) (127 # 1000) x then 1%nat
  else if in_open (1346 # 1000) (1348 # 1000) x then 2%nat
  else 3%nat.

(** The label expected in each bracket: the outer roots are minima of the
    potential, the middle one a maximum. *)
Definition expected_label (k : nat) : string :=
  match k with
  | 1%nat => "unstable"
  | _ => "stable"
  end%string.

(** The scenario with the values the spec gives: three roots, within [0.04]
    of [-1.52], [0.13] and [1.39], the outer two sharing one label and the
    middle one labelled otherwise. *)
Definition near (x c : Q) : bool := Qle_bool (Qabs (x - c)) (1 # 25).

Definition scenario_as_stated (l : list Q) : bool :=
  match l with
  | [a; b; c] =>
      near a (-(152 # 100)) && near b (13 # 100) && near c (139 # 100) &&
      String.eqb (fst (classify_equilibrium a)) (fst (classify_equilibrium c)) &&
      negb (String.eqb (fst (classify_equilibrium a)) (fst (classify_equilibrium b)))
  | _ => false
  end.

(** The bracket of a point together with its bounds. *)
Definition in_bracket (k : nat) (x : Q) : Prop :=
  match k with
  | O => -(1474 # 1000) < x /\ x < -(1472 # 1000)
  | S O => 125 # 1000 < x /\ x < 127 # 1000
  | S (S O) => 1346 # 1000 < x /\ x < 1348 # 1000
  | _ => False
  end.

(** Two accepted roots differ by more than [0.1]. *)
Definition apart (x y : Q) : Prop := tol_distinct < Qabs (x - y).

(** The invariant of the accepted list. *)
Definition good (pts : list Q) : Prop :=
  Forall (fun x => Qabs (force x) < tol_root) pts /\ ForallOrdPairs apart pts.
End Scenario.

(** ** The drawing loops of create_visualization and the table of
    print_analysis

    Each loop over [eq_points] is modelled as the list of items it draws
    or prints, one per point, in order.  Number formatting ([{x_eq:.2f}],
    [{x_eq:<15.4f}]) is not modelled: [fmt2] stands for [f'{v:.2f}'], and a
    table row keeps its four values before formatting. *)

Module Plot.

Import Lesson.
Open Scope Q_scope.

(** Top panel, lines 107-113: [ax1.plot(x_eq, potential_energy(x_eq),
    marker, color=color, markersize=15, label=label)]. *)
Record top_marker := {
  t_xy : Q * Q;
  t_marker : string;
  t_color : string;
  t_label : string
}.

Definition top_panel (fmt2 : Q -> string) (eq_points : list Q) : list top_marker :=
  map (fun x_eq =>
         let (stability, _) := classify_equilibrium x_eq in
         let color := if String.eqb stability "stable" then "green" else "red" in
         let marker := if String.eqb stability "stable" then "v" else "^" in
         let label := (capitalize stability ++ ": x=" ++ fmt2 x_eq)%string in
         {| t_xy := (x_eq, potential_energy x_eq); t_marker := marker;
            t_color := color; t_label := label |})%string
      eq_points.

(** Middle panel, lines 126-135: a dot at [(x_eq, 0)] and the annotation
    [f'x={x_eq:.2f}'] at [(x_eq, 0.5)] with an arrow of the same colour. *)
Record middle_marker := {
  m_xy : Q * Q;
  m_color : string;
  m_text : string;
  m_text_xy : Q * Q;
  m_arrow_color : string
}.

Definition middle_panel (fmt2 : Q -> string) (eq_points : list Q) : list middle_marker :=
  map (fun x_eq =>
         let (stability, _) := classify_equilibrium x_eq in
         let color := if String.eqb stability "stable" then "green" else "red" in
         {| m_xy := (x_eq, 0); m_color := color; m_text := ("x=" ++ fmt2 x_eq)%string;
            m_text_xy := (x_eq, 1 # 2); m_arrow_color := color |})%string
      eq_points.

(** Bottom panel, lines 149-176: a ball of radius [0.15] and its
    annotation box. *)
Record ball := {
  b_center : Q * Q;
  b_radius : Q;
  b_color : string;
  b_text : string;
  b_text_xy : Q * Q;
  b_facecolor : string;
  b_arrow_color : string
}.

Definition bottom_panel (eq_points : list Q) : list ball :=
  map (fun x_eq =>
         let (stability, _) := classify_equilibrium x_eq in
         let U_eq := potential_energy x_eq in
         if String.eqb stability "stable" then
           {| b_center := (x_eq, U_eq - (3 # 10)); b_radius := 15 # 100;
              b_color := "green";
              b_text := ("STABLE" ++ newline ++ "(returns to equilibrium)")%string;
              b_text_xy := (x_eq, U_eq - 2); b_facecolor := "lightgreen";
              b_arrow_color := "green" |}
         else
           {| b_center := (x_eq, U_eq + (3 # 10)); b_radius := 15 # 100;
              b_color := "red";
              b_text := ("UNSTABLE" ++ newline ++ "(moves away)")%string;
              b_text_xy := (x_eq, U_eq + (3 # 2)); b_facecolor := "lightcoral";
              b_arrow_color := "red" |})%string
      eq_points.

(** Python's [str.upper] on ASCII strings. *)
Fixpoint upper (s : string) : string :=
  match s with
  | EmptyString => EmptyString
  | String c r => String (ascii_upper c) (upper r)
  end.

(** print_analysis, lines 194-197: one row per point. *)
Record row := {
  r_position : Q;
  r_U : Q;
  r_stability : string;
  r_d2U : Q
}.

Definition print_analysis_rows (eq_points : list Q) : list row :=
  map (fun x_eq =>
         let U_eq := potential_energy x_eq in
         let (stability, d2U) := classify_equilibrium x_eq in
         {| r_position := x_eq; r_U := U_eq; r_stability := upper stability;
            r_d2U := d2U |})
      eq_points.

End Plot.

(** * Properties *)

Module Facts.

Import Lesson Scenario.
Open Scope Q_scope.

Example find_ref_three :
  find_equilibrium_points fsolve_ref =
  [-(14729976011 # 10000000000); 1260001926 # 10000000000; 13469974085 # 10000000000].
Proof. vm_compute. reflexivity. Qed.

Example find_fail0_two :
  find_equilibrium_points fsolve_fail0 =
  [-(14729976011 # 10000000000); 13469974085 # 10000000000].
Proof. vm_compute. reflexivity. Qed.

Example classify_ref :
  map (fun x => fst (classify_equilibrium x)) (find_equilibrium_points fsolve_ref) =
  ["stable"; "unstable"; "stable"]%string.
Proof. vm_compute. reflexivity. Qed.


(** ** Boolean comparisons *)

Lemma Qltb_true a b : Qltb a b = true <-> a < b.
Proof.
  unfold Qltb; rewrite Bool.negb_true_iff; split.
  - intro H; apply Qnot_le_lt; intro H'; apply Qle_bool_iff in H'; congruence.
  - intro H; destruct (Qle_bool b a) eqn:E; [|reflexivity].
    apply Qle_bool_iff in E; exfalso; apply (Qlt_not_le a b); assumption.
Qed.

Lemma Qltb_false a b : Qltb a b = false <-> ~ a < b.
Proof.
  rewrite <- Qltb_true; destruct (Qltb a b); split; congruence.
Qed.

Lemma is_new_true x pts :
  is_new x pts = true <-> Forall (fun y => tol_distinct < Qabs (x - y)) pts.
Proof.
  unfold is_new; rewrite forallb_forall, Forall_forall.
  split; intros H y Hy; apply Qltb_true, H; assumption.
Qed.

(** ** Pairwise distance on lists *)


Lemma apart_sym x y : apart x y -> apart y x.
Proof.
  unfold apart; intro H; rewrite Qabs_Qminus; assumption.
Qed.

Lemma ForallOrdPairs_snoc (R : Q -> Q -> Prop) l x :
  ForallOrdPairs R l -> Forall (fun y => R y x) l -> ForallOrdPairs R (l ++ [x]).
Proof.
  induction l as [|a l IH]; intros Hp Hf; simpl.
  - constructor; constructor.
  - inversion Hp as [|? ? Ha Hl]; subst. inversion Hf as [|? ? Hax Hfl]; subst.
    constructor.
    + apply Forall_app; split; [assumption | constructor; [assumption | constructor]].
    + apply IH; assumption.
Qed.

Lemma ForallOrdPairs_perm (R : Q -> Q -> Prop) l l' :
  (forall x y, R x y -> R y x) ->
  Permutation l l' -> ForallOrdPairs R l -> ForallOrdPairs R l'.
Proof.
  intros Hsym Hp; induction Hp as [| x l l' Hp IH | x y l | l l' l'' _ IH1 _ IH2];
    intro H.
  - exact H.
  - inversion H as [|? ? Hx Hl]; subst.
    constructor; [| apply IH; assumption].
    rewrite Forall_forall in *; intros z Hz; apply Hx.
    apply (Permutation_in _ (Permutation_sym Hp)); assumption.
  - inversion H as [|? ? Hy Hl]; subst. inversion Hl as [|? ? Hx Hl']; subst.
    inversion Hy as [|? ? Hyx Hyl]; subst.
    constructor; [constructor; [apply Hsym; assumption | assumption] |].
    constructor; assumption.
  - apply IH2, IH1, H.
Qed.

(** ** One step of the loop *)

Lemma seed_step_cases fsolve pts s :
  seed_step fsolve pts s = pts \/
  exists x, fsolve force s = Some x /\ Qabs (force x) < tol_root /\
            Forall (fun y => apart x y) pts /\ seed_step fsolve pts s = pts ++ [x].
Proof.
  unfold seed_step; destruct (fsolve force s) as [x|]; [|left; reflexivity].
  destruct (is_new x pts) eqn:Hn; [|left; reflexivity].
  destruct (Qltb (Qabs (force x)) tol_root) eqn:Ht; [|left; reflexivity].
  right; exists x; repeat split.
  - apply Qltb_true; assumption.
  - apply is_new_true; assumption.
Qed.


Lemma seed_step_good fsolve pts s : good pts -> good (seed_step fsolve pts s).
Proof.
  intros [Hf Hp]; destruct (seed_step_cases fsolve pts s) as [E | (x & _ & Hx & Hn & E)];
    rewrite E; [split; assumption |].
  split.
  - apply Forall_app; split; [assumption | constructor; [assumption | constructor]].
  - apply ForallOrdPairs_snoc; [assumption |].
    rewrite Forall_forall in *; intros y Hy; apply apart_sym, Hn, Hy.
Qed.

Lemma fold_seed_step_good fsolve guesses pts :
  good pts -> good (fold_left (seed_step fsolve) guesses pts).
Proof.
  revert pts; induction guesses as [|g gs IH]; intros pts H; simpl;
    [assumption | apply IH, seed_step_good, H].
Qed.

Lemma search_good fsolve guesses : good (search fsolve guesses).
Proof.
  apply fold_seed_step_good; split; constructor.
Qed.

Lemma fold_seed_step_length fsolve guesses pts :
  (List.length (fold_left (seed_step fsolve) guesses pts) <= List.length pts + List.length guesses)%nat.
Proof.
  revert pts; induction guesses as [|g gs IH]; intros pts; simpl; [lia |].
  specialize (IH (seed_step fsolve pts g)).
  destruct (seed_step_cases fsolve pts g) as [E | (x & _ & _ & _ & E)]; rewrite E in IH |- *;
    [| rewrite length_app in IH; simpl in IH]; lia.
Qed.

(** ** The sort *)

Lemma sorted_perm l : Permutation l (sorted l).
Proof. apply QSort.Permuted_sort. Qed.

Lemma sorted_Sorted l : Sorted Qle (sorted l).
Proof.
  unfold sorted.
  pose proof (QSort.Sorted_sort l) as H.
  induction H as [| a m _ IH Hd]; constructor; [assumption |].
  destruct Hd as [| b l' Hab]; constructor.
  apply Qle_bool_iff; exact Hab.
Qed.

(** ** The classifier *)

Lemma Qltb_compat a b a' b' : a == a' -> b == b' -> Qltb a b = Qltb a' b'.
Proof.
  intros Ha Hb; destruct (Qltb a b) eqn:E1, (Qltb a' b') eqn:E2; try reflexivity.
  - apply Qltb_true in E1; apply Qltb_false in E2; rewrite Ha, Hb in E1; contradiction.
  - apply Qltb_false in E1; apply Qltb_true in E2; rewrite <- Ha, <- Hb in E2; contradiction.
Qed.

Lemma second_derivative_compat x y : x == y -> second_derivative x == second_derivative y.
Proof.
  intro H; unfold second_derivative; rewrite H; reflexivity.
Qed.

(** ** The accepted list after sorting *)

Lemma find_equilibrium_points_good (fsolve : solver) :
  Sorted Qle (find_equilibrium_points fsolve) /\
  ForallOrdPairs (fun x y => tol_distinct < Qabs (x - y)) (find_equilibrium_points fsolve) /\
  Forall (fun x => Qabs (force x) < tol_root) (find_equilibrium_points fsolve).
Proof.
  unfold find_equilibrium_points.
  destruct (search_good fsolve seeds) as [Hf Hp].
  pose proof (sorted_perm (search fsolve seeds)) as Hperm.
  split; [apply sorted_Sorted | split].
  - apply (ForallOrdPairs_perm apart _ _ apart_sym Hperm Hp).
  - rewrite Forall_forall in *; intros x Hx.
    apply Hf, (Permutation_in _ (Permutation_sym Hperm)), Hx.
Qed.

(** * The claims *)

(** C1: the list returned by [find_equilibrium_points] is sorted in
    ascending order, any two of its positions differ by more than [0.1],
    and every position [x] in it has [|force x| < 1e-6]; for every
    behaviour of the solver. *)
Theorem find_equilibrium_points_invariant (fsolve : solver) :
  Sorted Qle (find_equilibrium_points fsolve) /\
  ForallOrdPairs (fun x y => tol_distinct < Qabs (x - y)) (find_equilibrium_points fsolve) /\
  Forall (fun x => Qabs (force x) < tol_root) (find_equilibrium_points fsolve).
Proof. apply find_equilibrium_points_good. Qed.


Lemma classify_equilibrium_cases (x : Q) :
  snd (classify_equilibrium x) = 12 * x ^ 2 - 8 /\
  (fst (classify_equilibrium x) = "stable"%string <-> 0 < snd (classify_equilibrium x)) /\
  (fst (classify_equilibrium x) = "unstable"%string <-> snd (classify_equilibrium x) < 0) /\
  (fst (classify_equilibrium x) = "neutral"%string <-> snd (classify_equilibrium x) == 0).
Proof.
  unfold classify_equilibrium; fold (second_derivative x).
  split; [destruct (Qltb 0 _); [| destruct (Qltb _ 0)]; reflexivity |].
  generalize (second_derivative x) as d; intro d.
  destruct (Qltb 0 d) eqn:Hpos; [| destruct (Qltb d 0) eqn:Hneg].
  - apply Qltb_true in Hpos.
    simpl; repeat split; intro H; try discriminate; try reflexivity; try assumption;
      first [exfalso; lra | lra].
  - apply Qltb_false in Hpos; apply Qltb_true in Hneg.
    simpl; repeat split; intro H; try discriminate; try reflexivity; try assumption;
      first [exfalso; lra | lra].
  - apply Qltb_false in Hpos; apply Qltb_false in Hneg.
    simpl; repeat split; intro H; try discriminate; try reflexivity; try assumption;
      first [exfalso; lra | lra].
Qed.

(** C2: [classify_equilibrium x] returns the curvature [12x^2 - 8] and the
    label ["stable"] exactly when it is positive, ["unstable"] exactly when
    it is negative and ["neutral"] exactly when it is zero. *)
Theorem classify_equilibrium_spec (x : Q) :
  snd (classify_equilibrium x) = 12 * x ^ 2 - 8 /\
  (fst (classify_equilibrium x) = "stable"%string <-> 0 < snd (classify_equilibrium x)) /\
  (fst (classify_equilibrium x) = "unstable"%string <-> snd (classify_equilibrium x) < 0) /\
  (fst (classify_equilibrium x) = "neutral"%string <-> snd (classify_equilibrium x) == 0).
Proof. apply classify_equilibrium_cases. Qed.


(** C3: for a seed from which the solver returns a candidate [x], the step
    appends [x] when [|force x| < 1e-6] and [x] differs from every accepted
    root by more than [0.1], and leaves the accepted roots unchanged
    otherwise. *)
Theorem seed_step_accepts (fsolve : solver) (pts : list Q) (s x : Q) :
  fsolve force s = Some x ->
  (Qabs (force x) < tol_root /\ Forall (fun y => tol_distinct < Qabs (x - y)) pts ->
   seed_step fsolve pts s = pts ++ [x]) /\
  (~ (Qabs (force x) < tol_root /\ Forall (fun y => tol_distinct < Qabs (x - y)) pts) ->
   seed_step fsolve pts s = pts).
Proof.
  intro Hs; unfold seed_step; rewrite Hs.
  split.
  - intros [Ht Hn]; apply is_new_true in Hn; apply Qltb_true in Ht.
    rewrite Hn, Ht; reflexivity.
  - intro Hno; destruct (is_new x pts) eqn:Hn; [| reflexivity].
    destruct (Qltb (Qabs (force x)) tol_root) eqn:Ht; [| reflexivity].
    exfalso; apply Hno; split; [apply Qltb_true | apply is_new_true]; assumption.
Qed.

Lemma seed_step_accepts_witness :
  fsolve_ref force (-2) = Some (-(14729976011 # 10000000000)) /\
  ((Qabs (force (-(14729976011 # 10000000000))) < tol_root /\
    Forall (fun y => tol_distinct < Qabs (-(14729976011 # 10000000000) - y)) [] ->
    seed_step fsolve_ref [] (-2) = [] ++ [-(14729976011 # 10000000000)]) /\
   (~ (Qabs (force (-(14729976011 # 10000000000))) < tol_root /\
       Forall (fun y => tol_distinct < Qabs (-(14729976011 # 10000000000) - y)) []) ->
    seed_step fsolve_ref [] (-2) = [])).
Proof.
  split; [reflexivity |].
  apply (seed_step_accepts fsolve_ref [] (-2) (-(14729976011 # 10000000000))).
  reflexivity.
Defined.

Lemma fold_seed_step_filter fsolve guesses pts :
  fold_left (seed_step fsolve) guesses pts =
  fold_left (seed_step fsolve)
    (filter (fun s => match fsolve force s with Some _ => true | None => false end) guesses)
    pts.
Proof.
  revert pts; induction guesses as [|g gs IH]; intro pts; simpl; [reflexivity |].
  destruct (fsolve force g) eqn:E; simpl.
  - apply IH.
  - rewrite IH; unfold seed_step at 2; rewrite E; reflexivity.
Qed.

(** C5: a seed from which the solver raises leaves the accepted roots
    unchanged, and the loop goes on with the next seed: the result is the
    one computed from the seeds whose search did not raise.  The finder is
    a total function to a list; no error reaches its caller. *)
Theorem find_equilibrium_points_swallows (fsolve : solver) :
  (forall pts s, fsolve force s = None -> seed_step fsolve pts s = pts) /\
  find_equilibrium_points fsolve =
  sorted (search fsolve
    (filter (fun s => match fsolve force s with Some _ => true | None => false end) seeds)).
Proof.
  split.
  - intros pts s E; unfold seed_step; rewrite E; reflexivity.
  - unfold find_equilibrium_points, search; rewrite fold_seed_step_filter; reflexivity.
Qed.

Lemma fold_seed_step_ext (f g : solver) guesses pts :
  (forall s, In s guesses -> f force s = g force s) ->
  fold_left (seed_step f) guesses pts = fold_left (seed_step g) guesses pts.
Proof.
  revert pts; induction guesses as [|s ss IH]; intros pts H; simpl; [reflexivity |].
  replace (seed_step f pts s) with (seed_step g pts s).
  - apply IH; intros s' Hs'; apply H; right; assumption.
  - unfold seed_step; rewrite (H s); [reflexivity | left; reflexivity].
Qed.

(** C7: the result of the finder is determined by what the solver returns
    from the fixed seeds [-2], [0] and [2]: two runs in which the solver
    behaves the same on them return the same list, in the same order. *)
Theorem find_equilibrium_points_deterministic (f g : solver) :
  (forall s, In s seeds -> f force s = g force s) ->
  find_equilibrium_points f = find_equilibrium_points g.
Proof.
  intro H; unfold find_equilibrium_points, search.
  rewrite (fold_seed_step_ext f g seeds [] H); reflexivity.
Qed.

Lemma find_equilibrium_points_deterministic_witness :
  (forall s, In s seeds -> fsolve_ref force s = fsolve_ref force s) /\
  find_equilibrium_points fsolve_ref = find_equilibrium_points fsolve_ref.
Proof.
  split; [intros; reflexivity |].
  apply (find_equilibrium_points_deterministic fsolve_ref fsolve_ref).
  intros; reflexivity.
Defined.

(** C8: [classify_equilibrium] depends on the value of its argument only:
    two calls on the same position give the same label and the same
    curvature. *)
Theorem classify_equilibrium_pure (x y : Q) :
  x == y ->
  fst (classify_equilibrium x) = fst (classify_equilibrium y) /\
  snd (classify_equilibrium x) == snd (classify_equilibrium y).
Proof.
  intro H; unfold classify_equilibrium.
  pose proof (second_derivative_compat x y H) as Hd.
  rewrite (Qltb_compat 0 (second_derivative x) 0 (second_derivative y)); [| reflexivity | assumption].
  rewrite (Qltb_compat (second_derivative x) 0 (second_derivative y) 0); [| assumption | reflexivity].
  destruct (Qltb 0 _); [| destruct (Qltb _ 0)]; split; solve [reflexivity | assumption].
Qed.

Lemma classify_equilibrium_pure_witness :
  (1 # 2) == (2 # 4) /\
  fst (classify_equilibrium (1 # 2)) = fst (classify_equilibrium (2 # 4)) /\
  snd (classify_equilibrium (1 # 2)) == snd (classify_equilibrium (2 # 4)).
Proof.
  split; [reflexivity |].
  apply (classify_equilibrium_pure (1 # 2) (2 # 4)); reflexivity.
Defined.

(** C9: the finder returns at most three positions, one per seed at most. *)
Theorem find_equilibrium_points_length (fsolve : solver) :
  (List.length (find_equilibrium_points fsolve) <= 3)%nat.
Proof.
  unfold find_equilibrium_points.
  rewrite <- (Permutation_length (sorted_perm _)).
  pose proof (fold_seed_step_length fsolve seeds []) as H.
  change (List.length (@nil Q)) with 0%nat in H.
  change (List.length seeds) with 3%nat in H.
  unfold search; lia.
Qed.

(** C10, as corrected: a point whose label is not ["stable"], ["neutral"]
    included, is drawn as an unstable one: red, with the marker ["^"] and
    the annotation ["UNSTABLE (moves away)"]; its legend label in the top
    panel is built from the label itself. *)
Theorem non_stable_drawn_unstable (stability x_text : string) :
  stability <> "stable"%string ->
  p_color (point_presentation stability x_text) = "red"%string /\
  p_marker (point_presentation stability x_text) = "^"%string /\
  p_annotation (point_presentation stability x_text) =
    ("UNSTABLE" ++ newline ++ "(moves away)")%string /\
  p_legend (point_presentation stability x_text) =
    (capitalize stability ++ ": x=" ++ x_text)%string.
Proof.
  intro H; apply String.eqb_neq in H; unfold point_presentation; simpl; rewrite H.
  repeat split.
Qed.

Lemma non_stable_drawn_unstable_witness :
  "neutral"%string <> "stable"%string /\
  p_color (point_presentation "neutral" "0.82") = "red"%string /\
  p_marker (point_presentation "neutral" "0.82") = "^"%string /\
  p_annotation (point_presentation "neutral" "0.82") =
    ("UNSTABLE" ++ newline ++ "(moves away)")%string /\
  p_legend (point_presentation "neutral" "0.82") =
    (capitalize "neutral" ++ ": x=" ++ "0.82")%string.
Proof.
  split; [discriminate |].
  apply (non_stable_drawn_unstable "neutral" "0.82"); discriminate.
Defined.

(** C10, as stated, fails: a neutral point and an unstable point at the
    same position get different legend labels, ["Neutral: x=0.82"] and
    ["Unstable: x=0.82"]. *)
Lemma neutral_legend_differs :
  String.eqb (p_legend (point_presentation "neutral" "0.82"))
             (p_legend (point_presentation "unstable" "0.82")) = false /\
  p_legend (point_presentation "neutral" "0.82") = "Neutral: x=0.82"%string.
Proof. split; vm_compute; reflexivity. Qed.


(** ** Where the roots of [force] lie *)

Lemma force_cubic x : force x == -4 * (x * x * x) + 8 * x - 1.
Proof. unfold force; simpl; unfold Qpower_positive, pow_pos; ring. Qed.

Lemma force_left x : x <= -(1474 # 1000) -> tol_root < force x.
Proof.
  intro H1; rewrite force_cubic; unfold tol_root.
  assert (0 <= (-(1474 # 1000) - x) * (-(1474 # 1000) - x)) by nra.
  nra.
Qed.

Lemma force_left_mid x : -(1472 # 1000) <= x -> x <= 125 # 1000 -> force x < - tol_root.
Proof.
  intros H1 H2; rewrite force_cubic; unfold tol_root.
  assert (0 <= (x + (1472 # 1000)) * ((125 # 1000) - x)) by (apply Qmult_le_0_compat; lra).
  nra.
Qed.

Lemma force_right_mid x : 127 # 1000 <= x -> x <= 1346 # 1000 -> tol_root < force x.
Proof.
  intros H1 H2; rewrite force_cubic; unfold tol_root.
  assert (0 <= (x - (127 # 1000)) * ((1346 # 1000) - x)) by (apply Qmult_le_0_compat; lra).
  nra.
Qed.

Lemma force_right x : 1348 # 1000 <= x -> force x < - tol_root.
Proof.
  intro H1; rewrite force_cubic; unfold tol_root.
  assert (0 <= (x - (1348 # 1000)) * (x - (1348 # 1000))) by nra.
  nra.
Qed.

Lemma root_brackets x :
  Qabs (force x) < tol_root ->
  (-(1474 # 1000) < x /\ x < -(1472 # 1000)) \/
  (125 # 1000 < x /\ x < 127 # 1000) \/
  (1346 # 1000 < x /\ x < 1348 # 1000).
Proof.
  intro H.
  assert (Hup : force x < tol_root) by (eapply Qle_lt_trans; [apply Qle_Qabs | exact H]).
  assert (Hlo : - tol_root < force x).
  { assert (- force x <= Qabs (force x)) by (rewrite <- Qabs_opp; apply Qle_Qabs). lra. }
  destruct (Qlt_le_dec (-(1474 # 1000)) x) as [A|A];
    [| pose proof (force_left x A); lra].
  destruct (Qlt_le_dec x (-(1472 # 1000))) as [B|B]; [left; split; assumption |].
  destruct (Qlt_le_dec (125 # 1000) x) as [C|C];
    [| pose proof (force_left_mid x B C); lra].
  destruct (Qlt_le_dec x (127 # 1000)) as [D|D]; [right; left; split; assumption |].
  destruct (Qlt_le_dec (1346 # 1000) x) as [E|E];
    [| pose proof (force_right_mid x D E); lra].
  destruct (Qlt_le_dec x (1348 # 1000)) as [F|F]; [right; right; split; assumption |].
  pose proof (force_right x F); lra.
Qed.

Lemma in_open_true lo hi x : in_open lo hi x = true <-> lo < x /\ x < hi.
Proof.
  unfold in_open; rewrite Bool.andb_true_iff, !Qltb_true; reflexivity.
Qed.

Lemma in_open_false lo hi x : x <= lo -> in_open lo hi x = false.
Proof.
  intro H; destruct (in_open lo hi x) eqn:E; [| reflexivity].
  apply in_open_true in E; lra.
Qed.

Lemma in_open_false' lo hi x : hi <= x -> in_open lo hi x = false.
Proof.
  intro H; destruct (in_open lo hi x) eqn:E; [| reflexivity].
  apply in_open_true in E; lra.
Qed.

Ltac bracket_by_open :=
  unfold bracket_index;
  repeat match goal with
  | |- context [in_open ?lo ?hi ?x] =>
      first [ rewrite (proj2 (in_open_true lo hi x)) by lra
            | rewrite (in_open_false lo hi x) by lra
            | rewrite (in_open_false' lo hi x) by lra ]
  end.

Lemma root_bracket_index x :
  Qabs (force x) < tol_root ->
  (bracket_index x < 3)%nat /\ in_bracket (bracket_index x) x.
Proof.
  intro H; destruct (root_brackets x H) as [[A B] | [[A B] | [A B]]].
  - assert (E : bracket_index x = 0%nat) by (bracket_by_open; reflexivity).
    rewrite E; split; [lia | split; assumption].
  - assert (E : bracket_index x = 1%nat) by (bracket_by_open; reflexivity).
    rewrite E; split; [lia | split; assumption].
  - assert (E : bracket_index x = 2%nat) by (bracket_by_open; reflexivity).
    rewrite E; split; [lia | split; assumption].
Qed.

Lemma in_bracket_index k x : in_bracket k x -> bracket_index x = k.
Proof.
  destruct k as [|[|[|k]]]; simpl; [intros [A B] .. | contradiction];
    bracket_by_open; reflexivity.
Qed.

Lemma in_bracket_label k x :
  in_bracket k x -> fst (classify_equilibrium x) = expected_label k.
Proof.
  intro H.
  destruct (classify_equilibrium_cases x) as (Hc & Hs & Hu & _).
  assert (Hsd : snd (classify_equilibrium x) == 12 * (x * x) - 8)
    by (rewrite Hc; simpl; unfold Qpower_positive, pow_pos; reflexivity).
  destruct k as [|[|[|k]]]; simpl in H; [| | | contradiction]; destruct H as [A B].
  - apply Hs; rewrite Hsd; nra.
  - apply Hu; rewrite Hsd; nra.
  - apply Hs; rewrite Hsd; nra.
Qed.

Lemma bracket_order i j x y :
  x <= y -> apart x y -> in_bracket i x -> in_bracket j y -> (i < j)%nat.
Proof.
  unfold apart, tol_distinct; intros Hxy Hap Hi Hj.
  rewrite Qabs_Qminus, Qabs_pos in Hap by lra.
  destruct i as [|[|[|i]]], j as [|[|[|j]]]; simpl in Hi, Hj;
    try contradiction; try lia; lra.
Qed.

Lemma strongly_sorted_brackets l :
  StronglySorted Qle l -> ForallOrdPairs apart l ->
  Forall (fun x => in_bracket (bracket_index x) x) l ->
  StronglySorted (fun x y => (bracket_index x < bracket_index y)%nat) l.
Proof.
  induction l as [|a l IH]; intros Hs Hp Hb; constructor.
  - inversion Hs; inversion Hp; inversion Hb; subst; apply IH; assumption.
  - inversion Hs as [|? ? _ Hsa]; inversion Hp as [|? ? Hpa _];
      inversion Hb as [|? ? Hba Hbl]; subst.
    rewrite Forall_forall in *; intros y Hy.
    apply (bracket_order _ _ a y); auto.
Qed.

Lemma sorted_three x1 x2 x3 :
  x1 < x2 -> x2 < x3 -> sorted [x1; x2; x3] = [x1; x2; x3].
Proof.
  intros H12 H23.
  assert (E12 : Qle_bool x1 x2 = true) by (apply Qle_bool_iff; lra).
  assert (E31 : Qle_bool x3 x1 = false)
    by (destruct (Qle_bool x3 x1) eqn:E; [apply Qle_bool_iff in E; lra | reflexivity]).
  assert (E32 : Qle_bool x3 x2 = false)
    by (destruct (Qle_bool x3 x2) eqn:E; [apply Qle_bool_iff in E; lra | reflexivity]).
  unfold sorted, QSort.sort; cbn.
  rewrite E12; cbn; rewrite E31, E32; reflexivity.
Qed.

Lemma gap_apart a b : a + (1 # 5) < b -> apart b a /\ apart a b.
Proof.
  unfold apart, tol_distinct; intro H.
  rewrite (Qabs_Qminus a b), Qabs_pos by lra; split; lra.
Qed.

Lemma root_in_bracket k x :
  Qabs (force x) < tol_root -> bracket_index x = k -> in_bracket k x.
Proof.
  intros H E; destruct (root_bracket_index x H) as [_ Hb]; rewrite E in Hb; exact Hb.
Qed.

(** C4, as corrected: every root the finder returns lies in one of the
    brackets [(-1.474, -1.472)], [(0.125, 0.127)], [(1.346, 1.348)] around
    the roots [-1.473], [0.126], [1.347] of [force], is labelled ["stable"]
    in the outer brackets and ["unstable"] in the middle one, and the roots
    come in increasing bracket order, one per bracket at most; when the
    solver goes from [-2], [0] and [2] to a root of the first, second and
    third bracket, the finder returns exactly these three roots. *)
Theorem find_equilibrium_points_scenario (fsolve : solver) :
  Forall (fun x => (bracket_index x < 3)%nat /\
                   fst (classify_equilibrium x) = expected_label (bracket_index x))
         (find_equilibrium_points fsolve) /\
  StronglySorted (fun x y => (bracket_index x < bracket_index y)%nat)
                 (find_equilibrium_points fsolve) /\
  (forall x1 x2 x3,
     fsolve force (-2) = Some x1 -> fsolve force 0 = Some x2 -> fsolve force 2 = Some x3 ->
     Qabs (force x1) < tol_root -> Qabs (force x2) < tol_root -> Qabs (force x3) < tol_root ->
     bracket_index x1 = 0%nat -> bracket_index x2 = 1%nat -> bracket_index x3 = 2%nat ->
     find_equilibrium_points fsolve = [x1; x2; x3]).
Proof.
  destruct (find_equilibrium_points_good fsolve) as (Hs & Hp & Hf).
  assert (Hb : Forall (fun x => (bracket_index x < 3)%nat /\ in_bracket (bracket_index x) x)
                      (find_equilibrium_points fsolve)).
  { rewrite Forall_forall in *; intros x Hx; apply root_bracket_index, Hf, Hx. }
  split; [| split].
  - rewrite Forall_forall in *; intros x Hx; destruct (Hb x Hx) as [Hlt Hin].
    split; [exact Hlt | apply in_bracket_label, Hin].
  - apply strongly_sorted_brackets.
    + apply Sorted_StronglySorted; [intros a b c; apply Qle_trans | exact Hs].
    + exact Hp.
    + rewrite Forall_forall in *; intros x Hx; apply Hb, Hx.
  - intros x1 x2 x3 S1 S2 S3 F1 F2 F3 B1 B2 B3.
    pose proof (root_in_bracket _ _ F1 B1) as I1; simpl in I1.
    pose proof (root_in_bracket _ _ F2 B2) as I2; simpl in I2.
    pose proof (root_in_bracket _ _ F3 B3) as I3; simpl in I3.
    destruct (gap_apart x1 x2) as [A21 _]; [lra |].
    destruct (gap_apart x1 x3) as [A31 _]; [lra |].
    destruct (gap_apart x2 x3) as [A32 _]; [lra |].
    unfold find_equilibrium_points, search, seeds; cbn [fold_left].
    unfold seed_step at 3; rewrite S1.
    rewrite (proj2 (Qltb_true _ _) F1); cbn [is_new forallb andb app].
    unfold seed_step at 2; rewrite S2.
    rewrite (proj2 (is_new_true x2 [x1])) by (constructor; [exact A21 | constructor]).
    rewrite (proj2 (Qltb_true _ _) F2); cbn [andb app].
    unfold seed_step; rewrite S3.
    rewrite (proj2 (is_new_true x3 [x1; x2]))
      by (constructor; [exact A31 | constructor; [exact A32 | constructor]]).
    rewrite (proj2 (Qltb_true _ _) F3); cbn [andb app].
    apply sorted_three; lra.
Qed.

Lemma find_equilibrium_points_scenario_witness :
  find_equilibrium_points fsolve_ref =
  [-(14729976011 # 10000000000); 1260001926 # 10000000000; 13469974085 # 10000000000].
Proof.
  apply (proj2 (proj2 (find_equilibrium_points_scenario fsolve_ref)));
    solve [reflexivity | vm_compute; reflexivity].
Defined.

(** C4, as the spec states it, fails on the reference run: the outer roots
    are [-1.473] and [1.347], not within [0.04] of [-1.52] and [1.39]. *)
Lemma scenario_as_stated_fails :
  scenario_as_stated (find_equilibrium_points fsolve_ref) = false.
Proof. vm_compute. reflexivity. Qed.

End Facts.

Module CalculusFacts.

Open Scope R_scope.

(** The rational functions of [Lesson] are the real ones of [Calculus] on
    rational arguments. *)
Lemma Q2R_force (q : Q) : Q2R (Lesson.force q) = Calculus.force (Q2R q).
Proof.
  unfold Lesson.force, Calculus.force.
  change (q ^ 3)%Q with (q * (q * q))%Q.
  rewrite Q2R_minus, Q2R_plus, !Q2R_mult.
  unfold Q2R at 1 5 7; simpl; field.
Qed.

Lemma Q2R_potential_energy (q : Q) :
  Q2R (Lesson.potential_energy q) = Calculus.potential_energy (Q2R q).
Proof.
  unfold Lesson.potential_energy, Calculus.potential_energy.
  change (q ^ 4)%Q with ((q * q) * (q * q))%Q; change (q ^ 2)%Q with (q * q)%Q.
  rewrite Q2R_plus, Q2R_minus, !Q2R_mult.
  unfold Q2R at 5; simpl; field.
Qed.

Lemma Q2R_second_derivative (q : Q) :
  Q2R (Lesson.second_derivative q) = Calculus.second_derivative (Q2R q).
Proof.
  unfold Lesson.second_derivative, Calculus.second_derivative.
  change (q ^ 2)%Q with (q * q)%Q.
  rewrite Q2R_minus, !Q2R_mult.
  unfold Q2R at 1 4; simpl; field.
Qed.

(** C6: [force] is minus the derivative of [potential_energy], and
    [second_derivative] is the derivative of that derivative, at every real
    [x]. *)
Theorem derivatives_consistent (x : R) :
  derivable_pt_lim Calculus.potential_energy x (- Calculus.force x) /\
  derivable_pt_lim (fun y => - Calculus.force y) x (Calculus.second_derivative x).
Proof.
  split.
  - change Calculus.potential_energy with
      (plus_fct (minus_fct (fun y => y ^ 4) (mult_real_fct 4 (fun y => y ^ 2))) id).
    replace (- Calculus.force x) with
      (INR 4 * x ^ pred 4 - 4 * (INR 2 * x ^ pred 2) + 1)
      by (unfold Calculus.force; simpl; ring).
    apply derivable_pt_lim_plus; [apply derivable_pt_lim_minus |].
    + apply derivable_pt_lim_pow.
    + apply derivable_pt_lim_scal, derivable_pt_lim_pow.
    + apply derivable_pt_lim_id.
  - change (fun y => - Calculus.force y) with
      (opp_fct (minus_fct (plus_fct (mult_real_fct (-4) (fun y => y ^ 3))
                                    (mult_real_fct 8 id))
                          (fct_cte 1))).
    replace (Calculus.second_derivative x) with
      (- (-4 * (INR 3 * x ^ pred 3) + 8 * 1 - 0))
      by (unfold Calculus.second_derivative; simpl; ring).
    apply derivable_pt_lim_opp, derivable_pt_lim_minus; [apply derivable_pt_lim_plus |].
    + apply derivable_pt_lim_scal, derivable_pt_lim_pow.
    + apply derivable_pt_lim_scal, derivable_pt_lim_id.
    + apply derivable_pt_lim_const.
Qed.

End CalculusFacts.

(** * The drawing loops, the table and more of the finder *)

Module Extras.

Import Lesson Scenario Plot Facts.
Open Scope Q_scope.

(** The three shapes of a classification. *)
Lemma classify_equilibrium_shape x :
  (classify_equilibrium x = ("stable"%string, second_derivative x) /\ 0 < second_derivative x) \/
  (classify_equilibrium x = ("unstable"%string, second_derivative x) /\ second_derivative x < 0) \/
  (classify_equilibrium x = ("neutral"%string, second_derivative x) /\ second_derivative x == 0).
Proof.
  unfold classify_equilibrium.
  destruct (Qltb 0 (second_derivative x)) eqn:Hp; [left; split; [reflexivity | apply Qltb_true; exact Hp] | right].
  apply Qltb_false in Hp.
  destruct (Qltb (second_derivative x) 0) eqn:Hn; [left; split; [reflexivity | apply Qltb_true; exact Hn] | right].
  apply Qltb_false in Hn; split; [reflexivity | lra].
Qed.

(** X1: the table of print_analysis has one row per point, in order; each
    row shows [potential_energy] and [second_derivative] at its position,
    and its stability column is ["STABLE"], ["UNSTABLE"] or ["NEUTRAL"]
    exactly when the d2U column is positive, negative or zero. *)
Theorem print_analysis_rows_spec (eq_points : list Q) :
  map r_position (print_analysis_rows eq_points) = eq_points /\
  Forall (fun r =>
            r_U r = potential_energy (r_position r) /\
            r_d2U r = second_derivative (r_position r) /\
            (r_stability r = "STABLE"%string <-> 0 < r_d2U r) /\
            (r_stability r = "UNSTABLE"%string <-> r_d2U r < 0) /\
            (r_stability r = "NEUTRAL"%string <-> r_d2U r == 0))
         (print_analysis_rows eq_points).
Proof.
  unfold print_analysis_rows; split.
  - rewrite map_map; induction eq_points as [|x xs IH]; [reflexivity |].
    simpl; rewrite IH; destruct (classify_equilibrium x); reflexivity.
  - apply Forall_map, Forall_forall; intros x _.
    destruct (classify_equilibrium_shape x) as [[E H] | [[E H] | [E H]]]; rewrite E; simpl;
      (split; [reflexivity | split; [reflexivity |]]);
      repeat split; intro H'; try discriminate; try reflexivity; try assumption;
      first [exfalso; lra | lra].
Qed.

(** X2: the top panel marks each point at [(x, potential_energy x)]; a
    point of positive curvature gets a green ["v"] labelled
    ["Stable: x=..."], any other point a red ["^"], labelled
    ["Unstable: x=..."] for negative and ["Neutral: x=..."] for zero
    curvature. *)
Theorem top_panel_spec (fmt2 : Q -> string) (eq_points : list Q) :
  Forall2 (fun x t =>
             t_xy t = (x, potential_energy x) /\
             (0 < second_derivative x ->
              t_marker t = "v"%string /\ t_color t = "green"%string /\
              t_label t = ("Stable: x=" ++ fmt2 x)%string) /\
             (second_derivative x < 0 ->
              t_marker t = "^"%string /\ t_color t = "red"%string /\
              t_label t = ("Unstable: x=" ++ fmt2 x)%string) /\
             (second_derivative x == 0 ->
              t_marker t = "^"%string /\ t_color t = "red"%string /\
              t_label t = ("Neutral: x=" ++ fmt2 x)%string))
          eq_points (top_panel fmt2 eq_points).
Proof.
  unfold top_panel; induction eq_points as [|x xs IH]; simpl; constructor; [| exact IH].
  destruct (classify_equilibrium_shape x) as [[E H] | [[E H] | [E H]]]; rewrite E; simpl;
    (split; [reflexivity |]); repeat split; try reflexivity; exfalso; lra.
Qed.

(** X3: the three panels give every point the same colour, green when its
    curvature is positive and red otherwise, and all mark it at its own
    position; the middle panel puts it on the axis at [(x, 0)] with its
    text at [(x, 0.5)] and an arrow of the point's colour. *)
Theorem panels_agree (fmt2 : Q -> string) (eq_points : list Q) :
  map t_color (top_panel fmt2 eq_points) = map m_color (middle_panel fmt2 eq_points) /\
  map m_color (middle_panel fmt2 eq_points) = map b_color (bottom_panel eq_points) /\
  map b_color (bottom_panel eq_points) =
    map (fun x => if Qltb 0 (second_derivative x) then "green"%string else "red"%string)
        eq_points /\
  Forall2 (fun x m => m_xy m = (x, 0) /\ m_text_xy m = (x, 1 # 2) /\
                      m_arrow_color m = m_color m)
          eq_points (middle_panel fmt2 eq_points).
Proof.
  set (colour := fun x => if Qltb 0 (second_derivative x) then "green"%string else "red"%string).
  assert (Hl : forall x, fst (classify_equilibrium x) = "stable"%string <->
                         Qltb 0 (second_derivative x) = true).
  { intro x; rewrite Qltb_true.
    destruct (classify_equilibrium_shape x) as [[E H] | [[E H] | [E H]]]; rewrite E; simpl;
      split; intro H'; try reflexivity; try discriminate; try assumption; exfalso; lra. }
  assert (Hc : forall x, (if String.eqb (fst (classify_equilibrium x)) "stable"
                          then "green" else "red")%string = colour x).
  { intro x; unfold colour; destruct (Qltb 0 (second_derivative x)) eqn:Q0.
    - apply Hl, String.eqb_eq in Q0; rewrite Q0; reflexivity.
    - destruct (String.eqb (fst (classify_equilibrium x)) "stable") eqn:S; [| reflexivity].
      apply String.eqb_eq, Hl in S; congruence. }
  assert (Ht : map t_color (top_panel fmt2 eq_points) = map colour eq_points).
  { unfold top_panel; rewrite map_map; apply map_ext; intro x.
    rewrite <- Hc; destruct (classify_equilibrium x); reflexivity. }
  assert (Hm : map m_color (middle_panel fmt2 eq_points) = map colour eq_points).
  { unfold middle_panel; rewrite map_map; apply map_ext; intro x.
    rewrite <- Hc; destruct (classify_equilibrium x); reflexivity. }
  assert (Hb : map b_color (bottom_panel eq_points) = map colour eq_points).
  { unfold bottom_panel; rewrite map_map; apply map_ext; intro x.
    rewrite <- Hc; destruct (classify_equilibrium x) as [st d]; simpl.
    destruct (String.eqb st "stable"); reflexivity. }
  rewrite Ht, Hm, Hb; split; [reflexivity | split; [reflexivity | split; [reflexivity |]]].
  clear Ht Hm Hb; unfold middle_panel.
  induction eq_points as [|x xs IH]; [constructor | simpl; constructor; [| exact IH]].
  destruct (classify_equilibrium x); repeat split.
Qed.

(** X4: the bottom panel draws a ball of radius [0.15] above the position
    for each point: for positive curvature it sits [0.3] below the curve
    point [(x, potential_energy x)] with its text further below; otherwise
    it sits [0.3] above the curve point with its text further above. *)
Theorem bottom_panel_placement (eq_points : list Q) :
  Forall2 (fun x b =>
             fst (b_center b) = x /\ fst (b_text_xy b) = x /\ b_radius b = 15 # 100 /\
             (0 < second_derivative x ->
              snd (b_center b) + (3 # 10) == potential_energy x /\
              snd (b_text_xy b) < snd (b_center b)) /\
             (~ 0 < second_derivative x ->
              snd (b_center b) == potential_energy x + (3 # 10) /\
              snd (b_center b) < snd (b_text_xy b)))
          eq_points (bottom_panel eq_points).
Proof.
  unfold bottom_panel; induction eq_points as [|x xs IH]; simpl; constructor; [| exact IH].
  destruct (classify_equilibrium_shape x) as [[E H] | [[E H] | [E H]]]; rewrite E; simpl;
    (split; [reflexivity | split; [reflexivity | split; [reflexivity |]]]);
    repeat split; intros; simpl; try (exfalso; lra); lra.
Qed.

(** ** More of the finder *)

Lemma ordered_gaps l :
  StronglySorted Qle l -> ForallOrdPairs apart l ->
  ForallOrdPairs (fun x y => x + tol_distinct < y) l.
Proof.
  induction l as [|a l IH]; intros Hs Hp; constructor.
  - inversion Hs as [|? ? _ Ha]; inversion Hp as [|? ? Hpa _]; subst.
    rewrite Forall_forall in *; intros y Hy.
    specialize (Ha y Hy); specialize (Hpa y Hy); unfold apart, tol_distinct in *.
    rewrite Qabs_Qminus, Qabs_pos in Hpa by lra; lra.
  - inversion Hs; inversion Hp; subst; apply IH; assumption.
Qed.

(** X5: the positions the finder returns strictly increase, each more
    than [0.1] above every earlier one. *)
Theorem find_equilibrium_points_gaps (fsolve : solver) :
  ForallOrdPairs (fun x y => x + tol_distinct < y) (find_equilibrium_points fsolve).
Proof.
  destruct (find_equilibrium_points_good fsolve) as (Hs & Hp & _).
  apply ordered_gaps; [| exact Hp].
  apply Sorted_StronglySorted; [intros a b c; apply Qle_trans | exact Hs].
Qed.

Lemma fold_seed_step_origin fsolve guesses pts x :
  In x (fold_left (seed_step fsolve) guesses pts) ->
  In x pts \/ exists s, In s guesses /\ fsolve force s = Some x.
Proof.
  revert pts; induction guesses as [|g gs IH]; intros pts H; simpl in H; [left; exact H |].
  destruct (IH _ H) as [Hin | (s & Hs & E)]; [| right; exists s; split; [right |]; assumption].
  destruct (seed_step_cases fsolve pts g) as [E | (y & Ey & _ & _ & E)]; rewrite E in Hin;
    [left; exact Hin |].
  apply in_app_or in Hin; destruct Hin as [Hin | [<- | []]]; [left; exact Hin |].
  right; exists g; split; [left; reflexivity | exact Ey].
Qed.

Lemma find_equilibrium_points_origin_aux (fsolve : solver) (x : Q) :
  In x (find_equilibrium_points fsolve) ->
  exists s, In s seeds /\ fsolve force s = Some x.
Proof.
  intro H; unfold find_equilibrium_points in H.
  apply (Permutation_in _ (Permutation_sym (sorted_perm _))) in H.
  destruct (fold_seed_step_origin fsolve seeds [] x H) as [[] | Hs]; exact Hs.
Qed.

(** X6: every position the finder returns is a value the solver returned
    from one of the seeds [-2], [0], [2]; the finder invents no point. *)
Theorem find_equilibrium_points_origin (fsolve : solver) (x : Q) :
  In x (find_equilibrium_points fsolve) ->
  exists s, In s seeds /\ fsolve force s = Some x.
Proof.
  apply find_equilibrium_points_origin_aux.
Qed.

Lemma find_equilibrium_points_origin_witness :
  In (-(14729976011 # 10000000000)) (find_equilibrium_points fsolve_ref) /\
  exists s, In s seeds /\ fsolve_ref force s = Some (-(14729976011 # 10000000000)).
Proof.
  split; [vm_compute; left; reflexivity |].
  apply find_equilibrium_points_origin; vm_compute; left; reflexivity.
Defined.

(** X7: when no seed yields a candidate within the root tolerance (the
    solver raises, or returns a point with [|force| >= 1e-6]), the finder
    returns the empty list. *)
Theorem find_equilibrium_points_empty (fsolve : solver) :
  (forall s x, In s seeds -> fsolve force s = Some x -> tol_root <= Qabs (force x)) ->
  find_equilibrium_points fsolve = [].
Proof.
  intro H.
  destruct (find_equilibrium_points fsolve) as [|x l] eqn:E; [reflexivity | exfalso].
  assert (Hx : In x (find_equilibrium_points fsolve)) by (rewrite E; left; reflexivity).
  destruct (find_equilibrium_points_origin_aux fsolve x Hx) as (s & Hs & Es).
  destruct (find_equilibrium_points_good fsolve) as (_ & _ & Hf).
  rewrite Forall_forall in Hf; specialize (Hf x Hx); specialize (H s x Hs Es); lra.
Qed.

Lemma find_equilibrium_points_empty_witness :
  find_equilibrium_points (fun _ _ => None) = [].
Proof.
  apply find_equilibrium_points_empty; intros s x _ E; discriminate.
Defined.

Lemma fold_seed_step_extends fsolve guesses pts :
  exists l, fold_left (seed_step fsolve) guesses pts = pts ++ l /\
            (List.length l <= List.length guesses)%nat.
Proof.
  revert pts; induction guesses as [|g gs IH]; intro pts; simpl.
  - exists []; rewrite app_nil_r; split; [reflexivity | simpl; lia].
  - destruct (seed_step_cases fsolve pts g) as [E | (y & _ & _ & _ & E)]; rewrite E;
      destruct (IH (seed_step fsolve pts g)) as (l & Hl & Hlen); rewrite E in Hl.
    + exists l; split; [exact Hl | simpl; lia].
    + exists (y :: l); rewrite Hl, <- app_assoc; split; [reflexivity | simpl; lia].
Qed.

(** X8: the seed loop never drops or reorders an accepted root: running it
    over [g1 ++ g2] gives the roots accepted over [g1] followed by at most
    one new root per seed of [g2]. *)
Theorem search_extends (fsolve : solver) (g1 g2 : list Q) :
  exists l, search fsolve (g1 ++ g2) = search fsolve g1 ++ l /\
            (List.length l <= List.length g2)%nat.
Proof.
  unfold search; rewrite fold_left_app; apply fold_seed_step_extends.
Qed.

(** X9: a root the solver returns from the first seed [-2], within the
    root tolerance, is always among the positions the finder returns. *)
Theorem find_equilibrium_points_first_seed (fsolve : solver) (x : Q) :
  fsolve force (-2) = Some x -> Qabs (force x) < tol_root ->
  In x (find_equilibrium_points fsolve).
Proof.
  intros Hs Ht; unfold find_equilibrium_points.
  apply (Permutation_in _ (sorted_perm _)).
  change (In x (fold_left (seed_step fsolve) [0; 2] (seed_step fsolve [] (-2)))).
  destruct (fold_seed_step_extends fsolve [0; 2] (seed_step fsolve [] (-2))) as (l & E & _).
  rewrite E; unfold seed_step at 1; rewrite Hs.
  rewrite (proj2 (Qltb_true _ _) Ht); simpl; left; reflexivity.
Qed.

Lemma find_equilibrium_points_first_seed_witness :
  In (-(14729976011 # 10000000000)) (find_equilibrium_points fsolve_fail0).
Proof.
  apply (find_equilibrium_points_first_seed fsolve_fail0); vm_compute; reflexivity.
Defined.

End Extras.
